(** * read_evtx_files.py: a directory scan for EVTX files

    A shallow embedding of [read_evtx_files] (src/read_evtx_files.py) as a
    program in a state-and-exception monad over a small model of the
    operating system: a path-indexed store of file-system nodes, the table of
    open file objects and the console.  The program text follows the Python
    source line by line; the primitives ([exists], [glob], [stat], [open],
    [read], [print]) follow POSIX and pathlib's PurePosixPath. *)

From Stdlib Require Import Strings.Byte Strings.Ascii Strings.String.
From stdpp Require Import base option list strings pretty gmap.

Open Scope string_scope.
Open Scope list_scope.

(** ** Bytes *)

Abbreviation bytes := (list byte).

#[global] Instance byte_eq_dec : EqDecision byte := Byte.byte_eq_dec.

(** The literal [b'ElfF'] of line 43. *)
Definition magic : bytes := [x45; x6c; x66; x46].

(** ** pathlib paths

    A pure POSIX path, as pathlib keeps it: the anchor (nothing, one slash,
    or two) and the components after it. *)

Record Path : Type := MkPath {
  anchor : string;
  parts : list string
}.

(** [s.split("/")] *)
Fixpoint split_slash (s : string) : list string :=
  match s with
  | EmptyString => [EmptyString]
  | String c s' =>
      if Ascii.eqb c "/"%char then EmptyString :: split_slash s'
      else match split_slash s' with
           | [] => [String c EmptyString]
           | x :: xs => String c x :: xs
           end
  end.

(** [s.lstrip("/")] *)
Fixpoint lstrip_slash (s : string) : string :=
  match s with
  | String c s' => if Ascii.eqb c "/"%char then lstrip_slash s' else s
  | EmptyString => EmptyString
  end.

(** [Path(s)]: exactly two leading slashes are kept as they are, any other
    number of them is one; empty components and ["."] are dropped. *)
Definition PathOf (s : string) : Path :=
  let rest := lstrip_slash s in
  let slashes := String.length s - String.length rest in
  MkPath (if decide (slashes = 0) then "" else if decide (slashes = 2) then "//" else "/")
         (filter (λ x, x ≠ "" ∧ x ≠ ".") (split_slash rest)).

(** The path of the entry [entry] of [p], as [glob] builds it. *)
Definition Child (p : Path) (entry : string) : Path :=
  MkPath (anchor p) (parts p ++ [entry]).

(** [str(p)] *)
Definition str (p : Path) : string :=
  match parts p with
  | [] => if decide (anchor p = "") then "." else anchor p
  | _ => anchor p +:+ String.concat "/" (parts p)
  end.

(** [p.name]: the last component, if any. *)
Definition name (p : Path) : string :=
  default "" (last (parts p)).

Arguments PathOf : simpl never.
Arguments Child : simpl never.
Arguments str : simpl never.
Arguments name : simpl never.

(** ** Shell-style patterns

    The fragment of [fnmatch] that pathlib's [glob] applies to one path
    component: [*] stands for any run of characters (an empty one too, and a
    leading dot is not special in pathlib), [?] for one character, every other
    character for itself, compared as is (POSIX: case matters). *)

Fixpoint fnmatch (pat s : string) : bool :=
  match pat with
  | EmptyString => match s with EmptyString => true | _ => false end
  | String c pat' =>
      if Ascii.eqb c "*"%char then
        (fix star (t : string) : bool :=
           fnmatch pat' t ||
           match t with
           | EmptyString => false
           | String _ t' => star t'
           end) s
      else if Ascii.eqb c "?"%char then
        match s with
        | EmptyString => false
        | String _ s' => fnmatch pat' s'
        end
      else
        match s with
        | EmptyString => false
        | String d s' => Ascii.eqb c d && fnmatch pat' s'
        end
  end.

(** ** The file system, the open files and the console *)

(** Why a lookup fails with an error that [exists()] does not take for "not
    there": a directory on the way may not be searched (EACCES), or a name
    is longer than the file system allows (ENAMETOOLONG; nothing can be
    there). *)
Inductive barrier : Type := NoSearch | TooLong.

(** What the lookup of a path gives.  A name that a directory lists but
    that resolves to nothing (no node in the store) stands for a dangling
    symbolic link, or for an entry removed after the directory was read. *)
Inductive node : Type :=
| Reg (readable : bool) (st_size : N) (data : bytes)
    (* a regular file, or a device that is read like one: whether the caller
       may open it for reading, the size in its metadata, the bytes that
       reading it gives; the two need not agree (a file being written, a
       file of procfs, a device) *)
| Faulty (st_size : N)
    (* a regular file that opens but whose blocks cannot be read (EIO) *)
| Fifo
    (* a named pipe without a writer: opening it for reading does not return *)
| Dir (st_size : N) (listing : list string)
    (* a directory: its own size, and its entries in the order scandir gives
       them (none for a directory that may not be read: glob passes over
       that error) *)
| Barred (why : barrier).
    (* the lookup itself fails *)

(** One line of the report.  [render] gives the text that is printed.  The
    strings of this model are text that the console can encode: a file name
    that cannot be encoded is not among them, and [print] always succeeds. *)
Inductive line : Type :=
| ErrNoDir (directory : string)
| NoFiles (directory : string)
| Found (n : nat)
| Rule
| FileName (nm : string)
| FileSize (n : N)
| SigValid
| SigWarning
| ReadErr (msg : string).

Record world : Type := World {
  files : gmap string node;      (* the store, by path *)
  handles : list (string * nat); (* the open file objects: path and position *)
  console : list line            (* what was printed, oldest first *)
}.

(** Exceptions: everything raised here is an [OSError], hence an [Exception]. *)
Inductive exn : Type :=
| FileNotFoundError (filename : string)
| PermissionError (filename : string)
| IsADirectoryError (filename : string)
| IOError_EIO
| OSError_ENAMETOOLONG (filename : string).

(** [str(e)]; [repr] of a file name is taken to be the name in single quotes
    (names without quotes, backslashes or control characters). *)
Definition str_exn (e : exn) : string :=
  match e with
  | FileNotFoundError f => "[Errno 2] No such file or directory: '" +:+ f +:+ "'"
  | PermissionError f => "[Errno 13] Permission denied: '" +:+ f +:+ "'"
  | IsADirectoryError f => "[Errno 21] Is a directory: '" +:+ f +:+ "'"
  | IOError_EIO => "[Errno 5] Input/output error"
  | OSError_ENAMETOOLONG f => "[Errno 36] File name too long: '" +:+ f +:+ "'"
  end.

(** The exception of a failed lookup of [filename]. *)
Definition barrier_exn (b : barrier) (filename : string) : exn :=
  match b with
  | NoSearch => PermissionError filename
  | TooLong => OSError_ENAMETOOLONG filename
  end.

(** ** The monad: state passing with exceptions and calls that do not return *)

Inductive outcome (A : Type) : Type :=
| Ok (a : A)
| Raise (e : exn)
| Blocked.
    (* a call does not return; the world is the one at that call *)
Arguments Ok {A} a.
Arguments Raise {A} e.
Arguments Blocked {A}.

Definition M (A : Type) : Type := world → outcome A * world.

#[global] Instance M_ret : MRet M := λ A a w, (Ok a, w).

#[global] Instance M_bind : MBind M := λ A B f m w,
  match m w with
  | (Ok a, w') => f a w'
  | (Raise e, w') => (Raise e, w')
  | (Blocked, w') => (Blocked, w')
  end.

(** [try: body except Exception as e: handler(e)] *)
Definition try_except (body : M unit) (handler : exn → M unit) : M unit := λ w,
  match body w with
  | (Ok a, w') => (Ok a, w')
  | (Raise e, w') => handler e w'
  | (Blocked, w') => (Blocked, w')
  end.

(** [for x in xs: body(x)] *)
Fixpoint for_each {A} (xs : list A) (body : A → M unit) : M unit :=
  match xs with
  | [] => mret ()
  | x :: xs' => body x ;; for_each xs' body
  end.

(** ** Primitives *)

Definition print (l : line) : M unit := λ w,
  (Ok (), World (files w) (handles w) (console w ++ [l])).

(** [p.exists()]: false when the lookup finds nothing; an error of the
    lookup other than that is raised again. *)
Definition path_exists (p : Path) : M bool := λ w,
  match files w !! str p with
  | None => (Ok false, w)
  | Some (Barred b) => (Raise (barrier_exn b (str p)), w)
  | Some _ => (Ok true, w)
  end.

(** [list(p.glob(pat))]: the entries of a directory whose name matches, as
    children of [p], in listing order; nothing when [p] is not a directory;
    the test for that raises the error of a failed lookup. *)
Definition glob (p : Path) (pat : string) : M (list Path) := λ w,
  match files w !! str p with
  | Some (Dir _ names) => (Ok (Child p <$> filter (λ n, fnmatch pat n = true) names), w)
  | Some (Barred b) => (Raise (barrier_exn b (str p)), w)
  | _ => (Ok [], w)
  end.

(** [p.stat().st_size] *)
Definition stat_size (p : Path) : M N := λ w,
  match files w !! str p with
  | Some (Reg _ n _) => (Ok n, w)
  | Some (Faulty n) => (Ok n, w)
  | Some Fifo => (Ok 0%N, w)
  | Some (Dir n _) => (Ok n, w)
  | Some (Barred b) => (Raise (barrier_exn b (str p)), w)
  | None => (Raise (FileNotFoundError (str p)), w)
  end.

Inductive mode : Type := RB | WB.

(** A file object: the path it was opened on. *)
Record file : Type := File { file_path : string }.

(** [open(p, mode)].  ['rb'] needs a readable regular file and changes
    nothing but the table of open files, where the new file object stands
    at position 0; ['wb'] creates or truncates.  On a pipe without a writer
    the call does not return. *)
Definition open (p : Path) (m : mode) : M file := λ w,
  match m, files w !! str p with
  | _, Some (Dir _ _) => (Raise (IsADirectoryError (str p)), w)
  | _, Some (Barred b) => (Raise (barrier_exn b (str p)), w)
  | _, Some Fifo => (Blocked, w)
  | RB, None => (Raise (FileNotFoundError (str p)), w)
  | RB, Some (Reg false _ _) => (Raise (PermissionError (str p)), w)
  | RB, Some _ =>
      (Ok (File (str p)), World (files w) ((str p, 0) :: handles w) (console w))
  | WB, _ =>
      (Ok (File (str p)),
       World (<[str p := Reg true 0 []]> (files w)) ((str p, 0) :: handles w) (console w))
  end.

(** The position of the file object on [x], and the table with that file
    object moved on by [k], or taken out. *)
Fixpoint position (x : string) (l : list (string * nat)) : nat :=
  match l with
  | [] => 0
  | (y, pos) :: l' => if decide (x = y) then pos else position x l'
  end.

Fixpoint advance (x : string) (k : nat) (l : list (string * nat)) : list (string * nat) :=
  match l with
  | [] => []
  | (y, pos) :: l' =>
      if decide (x = y) then (y, pos + k) :: l' else (y, pos) :: advance x k l'
  end.

Fixpoint remove_first (x : string) (l : list (string * nat)) : list (string * nat) :=
  match l with
  | [] => []
  | (y, pos) :: l' => if decide (x = y) then l' else (y, pos) :: remove_first x l'
  end.

(** [f.close()] *)
Definition close (f : file) : M unit := λ w,
  (Ok (), World (files w) (remove_first (file_path f) (handles w)) (console w)).

(** [f.read(n)]: at most [n] bytes from the position of the file object,
    which moves on by as many bytes as were read.  (A file object whose
    path resolves to something else than a regular file cannot come out of
    [open]; those cases are there for totality.) *)
Definition read (f : file) (n : nat) : M bytes := λ w,
  match files w !! file_path f with
  | Some (Reg _ _ d) =>
      let chunk := take n (drop (position (file_path f) (handles w)) d) in
      (Ok chunk,
       World (files w) (advance (file_path f) (length chunk) (handles w)) (console w))
  | Some (Faulty _) => (Raise IOError_EIO, w)
  | Some (Dir _ _) => (Raise (IsADirectoryError (file_path f)), w)
  | Some (Barred b) => (Raise (barrier_exn b (file_path f)), w)
  | Some Fifo => (Blocked, w)
  | None => (Ok [], w)
  end.

(** [with open(p, mode) as f: body(f)]: the file object is closed when the
    block is left, normally or by an exception, which is then raised again. *)
Definition closing (f : file) (body : M unit) : M unit := λ w,
  match body w with
  | (Ok _, w') => close f w'
  | (Raise e, w') => (Raise e, snd (close f w'))
  | (Blocked, w') => (Blocked, w')
  end.

Definition with_open (p : Path) (m : mode) (body : file → M unit) : M unit :=
  f ← open p m;
  closing f (body f).

(** ** The program *)

(** Lines 42-46: the block of the [with] statement, for the file object. *)
Definition signature_check (f : file) : M unit :=
  header ← read f 8;
  if decide (take 4 header = magic)
  then print SigValid
  else print SigWarning.

(** Lines 33-48: the body of the loop, for one matched entry. *)
Definition loop_body (evtx_file : Path) : M unit :=
  print (FileName (name evtx_file));;
  st_size ← stat_size evtx_file;
  print (FileSize st_size);;
  try_except
    (with_open evtx_file RB signature_check)
    (λ e, print (ReadErr (str_exn e))).

(** Lines 10-48. *)
Definition read_evtx_files (directory : string) : M unit :=
  let dir_path := PathOf directory in
  ex ← path_exists dir_path;
  if negb ex then
    print (ErrNoDir directory)
  else
    evtx_files ← glob dir_path "*.evtx";
    if bool_decide (evtx_files = []) then
      print (NoFiles directory)
    else
      print (Found (length evtx_files));;
      print Rule;;
      for_each evtx_files loop_body.

(** Line 51: the entry point scans the default directory. *)
Definition main : M unit := read_evtx_files "evtx_files".

(** ** The printed text *)

(** Python's [','] format option: a comma before every group of three digits,
    counted from the right.  Here on the digits in reverse order. *)
Fixpoint group_thousands (rev_digits : list ascii) : list ascii :=
  match rev_digits with
  | a :: b :: c :: rest =>
      match rest with
      | [] => rev_digits
      | _ => a :: b :: c :: ","%char :: group_thousands rest
      end
  | _ => rev_digits
  end.

(** [f"{n:,}"] *)
Definition format_grouped (n : N) : string :=
  string_of_list_ascii
    (reverse (group_thousands (reverse (list_ascii_of_string (pretty n))))).

(** ["-" * 50] *)
Definition dashes : string := string_of_list_ascii (replicate 50 "-"%char).

Definition render (l : line) : string :=
  match l with
  | ErrNoDir d => "Error: Directory '" +:+ d +:+ "' does not exist"
  | NoFiles d => "No .evtx files found in '" +:+ d +:+ "'"
  | Found n => "Found " +:+ pretty n +:+ " .evtx file(s):"
  | Rule => dashes
  | FileName nm => String "010" ("File: " +:+ nm)
  | FileSize n => "Size: " +:+ format_grouped n +:+ " bytes"
  | SigValid => "Valid EVTX file signature detected"
  | SigWarning => "Warning: File may not be a valid EVTX file"
  | ReadErr msg => "Error reading file: " +:+ msg
  end.

(** * Vocabulary of the statements

    What follows is not program text: the functions and predicates in which
    the properties are stated, and the file systems they are tried on. *)

(** ** The extension *)

(** [s.endswith(suf)]: some tail of [s] is [suf]. *)
Fixpoint ends_with (s suf : string) : bool :=
  String.eqb s suf ||
  match s with
  | EmptyString => false
  | String _ s' => ends_with s' suf
  end.

(** A pattern without wildcards. *)
Definition literal (pat : string) : Prop :=
  Forall (λ c, c ≠ "*"%char ∧ c ≠ "?"%char) (list_ascii_of_string pat).

(** The names of a listing that carry the extension, in listing order. *)
Definition matching (names : list string) : list string :=
  filter (λ n, ends_with n ".evtx" = true) names.

(** ** Lines added to the console *)

(** The world [w] after the lines [ls] were printed. *)
Definition say (ls : list line) (w : world) : world :=
  World (files w) (handles w) (console w ++ ls).

(** The lines that a scan adds to the console. *)
Definition printed (directory : string) (w : world) : list line :=
  drop (length (console w)) (console (read_evtx_files directory w).2).


(** ** One entry *)

(** Lines 41-42 on their own: open for binary reading, read 8 bytes. *)
Definition open_and_read8 (p : Path) : M bytes :=
  f ← open p RB; read f 8.

(** The third line of an entry's report, by how lines 41-42 end; none when
    they do not end. *)
Definition signature_line (r : outcome bytes) : option line :=
  match r with
  | Ok header => Some (if decide (take 4 header = magic) then SigValid else SigWarning)
  | Raise e => Some (ReadErr (str_exn e))
  | Blocked => None
  end.

(** The lines of an entry whose size can be had and whose open returns or
    raises: name, size, and the signature line that its open and read
    give. *)
Definition reported (w : world) (p : Path) (ls : list line) : Prop :=
  ∃ sz l3, (stat_size p w).1 = Ok sz ∧
           signature_line (open_and_read8 p w).1 = Some l3 ∧
           ls = [FileName (name p); FileSize sz; l3].

(** The loop body gets through the entry: its size can be had, and its
    open returns or raises. *)
Definition handled (w : world) (p : Path) : Prop :=
  (∃ sz, (stat_size p w).1 = Ok sz) ∧ (open_and_read8 p w).1 ≠ Blocked.


(** ** Reports, as functions of the store

    What a run prints and how it ends, computed from the store alone; the
    program is shown below to do just this ([loop_body_report],
    [for_each_report], [read_evtx_files_report]). *)

(** The size in the metadata of a node that has some. *)
Definition size_of (nd : node) : N :=
  match nd with
  | Reg _ n _ => n
  | Faulty n => n
  | Dir n _ => n
  | Fifo | Barred _ => 0
  end.

(** The third line of an entry's report, by what the entry resolves to;
    none for a pipe, on which [open] does not return. *)
Definition verdict (p : Path) (nd : node) : option line :=
  match nd with
  | Reg true _ d => Some (if decide (take 4 d = magic) then SigValid else SigWarning)
  | Reg false _ _ => Some (ReadErr (str_exn (PermissionError (str p))))
  | Faulty _ => Some (ReadErr (str_exn IOError_EIO))
  | Dir _ _ => Some (ReadErr (str_exn (IsADirectoryError (str p))))
  | Barred b => Some (ReadErr (str_exn (barrier_exn b (str p))))
  | Fifo => None
  end.

Definition entry_report (fs : gmap string node) (p : Path) : list line * outcome unit :=
  match fs !! str p with
  | None => ([FileName (name p)], Raise (FileNotFoundError (str p)))
  | Some (Barred b) => ([FileName (name p)], Raise (barrier_exn b (str p)))
  | Some nd =>
      match verdict p nd with
      | Some l3 => ([FileName (name p); FileSize (size_of nd); l3], Ok ())
      | None => ([FileName (name p); FileSize (size_of nd)], Blocked)
      end
  end.

Fixpoint loop_report (fs : gmap string node) (ps : list Path) : list line * outcome unit :=
  match ps with
  | [] => ([], Ok ())
  | p :: ps' =>
      match entry_report fs p with
      | (ls, Ok _) => (ls ++ (loop_report fs ps').1, (loop_report fs ps').2)
      | (ls, Raise e) => (ls, Raise e)
      | (ls, Blocked) => (ls, Blocked)
      end
  end.

Definition scan_report (fs : gmap string node) (directory : string)
  : list line * outcome unit :=
  match fs !! str (PathOf directory) with
  | None => ([ErrNoDir directory], Ok ())
  | Some (Dir _ names) =>
      match matching names with
      | [] => ([NoFiles directory], Ok ())
      | ms =>
          let r := loop_report fs (Child (PathOf directory) <$> ms) in
          (Found (length ms) :: Rule :: r.1, r.2)
      end
  | Some (Barred b) => ([], Raise (barrier_exn b (str (PathOf directory))))
  | Some _ => ([NoFiles directory], Ok ())
  end.

(** ** Stores that differ past the fourth byte *)

(** Two nodes that differ at most in the content of a regular file from
    the fifth byte on (same permission, same size in the metadata, same
    first four bytes). *)
Definition same_first4 (nd nd' : node) : Prop :=
  match nd, nd' with
  | Reg r n d, Reg r' n' d' => r = r' ∧ n = n' ∧ take 4 d = take 4 d'
  | _, _ => nd = nd'
  end.

Definition agree (fs fs' : gmap string node) : Prop :=
  ∀ k, option_Forall2 same_first4 (fs !! k) (fs' !! k).

(** ** Sample file systems *)

(** [b'ElfFile\x00'], the first eight bytes of an EVTX file. *)
Definition elf_header : bytes := [x45; x6c; x66; x46; x69; x6c; x65; x00].

(** The default directory with: a good file, a file of three bytes, a file
    that may not be read, a subdirectory with the extension, a file on bad
    blocks, and two entries without the extension. *)
Definition sample_world : world :=
  World
    (list_to_map
       [("evtx_files", Dir 4096 ["a.evtx"; "notes.txt"; "short.evtx"; "locked.evtx";
                                 "sub.evtx"; "bad.evtx"; "A.EVTX"]);
        ("evtx_files/a.evtx", Reg true 10 (elf_header ++ [x03; x00]));
        ("evtx_files/notes.txt", Reg true 2 [x68; x69]);
        ("evtx_files/short.evtx", Reg true 3 [x45; x6c; x66]);
        ("evtx_files/locked.evtx", Reg false 8 elf_header);
        ("evtx_files/sub.evtx", Dir 4096 ["inner.evtx"]);
        ("evtx_files/sub.evtx/inner.evtx", Reg true 8 elf_header);
        ("evtx_files/bad.evtx", Faulty 69632);
        ("evtx_files/A.EVTX", Reg true 8 elf_header)])
    [] [].


(** A directory whose first matching entry is a dangling symbolic link. *)
Definition dangling_world : world :=
  World
    (list_to_map
       [("logs", Dir 4096 ["a.evtx"; "b.evtx"]);
        ("logs/b.evtx", Reg true 8 elf_header)])
    [] [].




(** A directory with a pipe before a good file, and a file whose metadata
    give the size 0 for 8 bytes of content. *)
Definition spool_world : world :=
  World
    (list_to_map
       [("spool", Dir 4096 ["stat.evtx"; "pipe.evtx"; "a.evtx"]);
        ("spool/stat.evtx", Reg true 0 elf_header);
        ("spool/pipe.evtx", Fifo);
        ("spool/a.evtx", Reg true 8 elf_header)])
    [] [].


(** ** Further vocabulary *)

(** [s.replace(",", "")] *)
Definition strip_commas (s : string) : string :=
  string_of_list_ascii (filter (λ c, c ≠ ","%char) (list_ascii_of_string s)).

(** The lines that belong to the report of an entry. *)
Definition entry_line (l : line) : Prop :=
  match l with
  | FileName _ | FileSize _ | SigValid | SigWarning | ReadErr _ => True
  | ErrNoDir _ | NoFiles _ | Found _ | Rule => False
  end.

(** [sample_world] with other content in the entries that do not carry the
    extension, one more such entry, and a file elsewhere. *)
Definition other_world : world :=
  World
    (list_to_map
       [("evtx_files", Dir 4096 ["a.evtx"; "notes.txt"; "short.evtx"; "locked.evtx";
                                 "sub.evtx"; "bad.evtx"; "A.EVTX"]);
        ("evtx_files/a.evtx", Reg true 10 (elf_header ++ [x03; x00]));
        ("evtx_files/notes.txt", Reg false 8 elf_header);
        ("evtx_files/short.evtx", Reg true 3 [x45; x6c; x66]);
        ("evtx_files/locked.evtx", Reg false 8 elf_header);
        ("evtx_files/sub.evtx", Dir 4096 ["inner.evtx"]);
        ("evtx_files/bad.evtx", Faulty 69632);
        ("elsewhere/c.evtx", Reg true 8 elf_header)])
    [] [SigValid].

(** * Properties *)

(** ** The extension filter *)

Lemma app_cons (a : ascii) (s t : string) :
  String a s +:+ t = String a (s +:+ t).
Proof. reflexivity. Qed.

Lemma ends_with_spec (s suf : string) :
  ends_with s suf = true ↔ ∃ stem, s = stem +:+ suf.
Proof.
  induction s as [|a s IH]; cbn [ends_with].
  - rewrite orb_false_r, String.eqb_eq. split.
    + intros ->. by exists "".
    + intros [[|b stem] E]; [done | rewrite app_cons in E; discriminate].
  - rewrite orb_true_iff, String.eqb_eq, IH. split.
    + intros [->|[stem ->]]; [by exists "" | by exists (String a stem)].
    + intros [[|b stem] E].
      * left. exact E.
      * right. rewrite app_cons in E. injection E as _ ->. by exists stem.
Qed.

Lemma fnmatch_literal (pat : string) :
  literal pat → ∀ s, fnmatch pat s = String.eqb s pat.
Proof.
  unfold literal. induction pat as [|c pat IH]; simpl; intros L s.
  - by destruct s.
  - apply Forall_cons in L as [[Hs Hq] L].
    apply Ascii.eqb_neq in Hs, Hq. rewrite Hs, Hq.
    destruct s as [|d s]; [done|]. simpl.
    rewrite IH by done. by rewrite (Ascii.eqb_sym c d).
Qed.

(** After a leading [*], a literal pattern asks for a suffix. *)
Lemma fnmatch_star_literal (pat : string) :
  literal pat → ∀ s, fnmatch (String "*" pat) s = ends_with s pat.
Proof.
  intros L s. cbn [fnmatch]. rewrite Ascii.eqb_refl.
  induction s as [|a s IH]; cbn [ends_with].
  - by rewrite fnmatch_literal.
  - rewrite fnmatch_literal by done. by rewrite IH.
Qed.

Lemma fnmatch_evtx (n : string) : fnmatch "*.evtx" n = ends_with n ".evtx".
Proof.
  apply fnmatch_star_literal. unfold literal. simpl.
  repeat constructor; discriminate.
Qed.

(** ** Paths *)

Lemma name_Child (p : Path) (n : string) : name (Child p n) = n.
Proof. unfold name, Child. simpl. by rewrite last_snoc. Qed.

(** ** What one run prints and how it ends

    Every run leaves the store and the open files as they were and appends to
    the console; [report]s say what is appended and how the run ends. *)

Lemma say_nil (w : world) : say [] w = w.
Proof. destruct w. unfold say. simpl. by rewrite app_nil_r. Qed.

Lemma say_say (l1 l2 : list line) (w : world) :
  say l2 (say l1 w) = say (l1 ++ l2) w.
Proof. unfold say. simpl. by rewrite app_assoc. Qed.

Lemma remove_first_head (x : string) (pos : nat) (l : list (string * nat)) :
  remove_first x ((x, pos) :: l) = l.
Proof. simpl. by rewrite decide_True. Qed.

Lemma position_head (x : string) (pos : nat) (l : list (string * nat)) :
  position x ((x, pos) :: l) = pos.
Proof. simpl. by rewrite decide_True. Qed.

Lemma advance_head (x : string) (pos k : nat) (l : list (string * nat)) :
  advance x k ((x, pos) :: l) = (x, pos + k) :: l.
Proof. simpl. by rewrite decide_True. Qed.

(** The check on a regular file just opened: 8 bytes are asked for, the
    file object moves on by what there was of them, and the first 4 decide
    the line. *)
Lemma signature_check_regular (w : world) (k : string) (r : bool) (sz : N) (d : bytes)
    (hs : list (string * nat)) :
  files w !! k = Some (Reg r sz d) →
  handles w = (k, 0) :: hs →
  signature_check (File k) w =
  (Ok (),
   World (files w) ((k, length (take 8 d)) :: hs)
     (console w ++ [if decide (take 4 d = magic) then SigValid else SigWarning])).
Proof.
  intros E H. unfold signature_check, mbind, M_bind, read. cbn [file_path].
  rewrite E, H, position_head, advance_head. rewrite drop_0. cbn [Nat.add].
  rewrite take_take. cbn [Nat.min].
  by destruct (decide (take 4 d = magic)).
Qed.

Lemma loop_body_report (p : Path) (w : world) :
  loop_body p w = ((entry_report (files w) p).2, say (entry_report (files w) p).1 w).
Proof.
  unfold entry_report, loop_body, mbind, M_bind, print, stat_size. simpl.
  destruct (files w !! str p) as [[[|] sz d|n|  |n l|b]|] eqn:E; simpl;
    unfold try_except, with_open, mbind, M_bind, open; simpl; rewrite ?E; simpl;
    unfold say; simpl; rewrite <- ?app_assoc; simpl; try done.
  - unfold closing.
    rewrite (signature_check_regular _ (str p) true sz d (handles w)) by done.
    unfold close. simpl. rewrite decide_True by done.
    by rewrite <- app_assoc.
  - unfold closing, signature_check, mbind, M_bind, read, close. simpl.
    rewrite E. simpl. rewrite decide_True by done.
    by rewrite <- app_assoc.
Qed.

Lemma for_each_report (ps : list Path) (w : world) :
  for_each ps loop_body w =
  ((loop_report (files w) ps).2, say (loop_report (files w) ps).1 w).
Proof.
  revert w. induction ps as [|p ps IH]; intros w; simpl.
  - by rewrite say_nil.
  - unfold mbind, M_bind. rewrite loop_body_report.
    destruct (entry_report (files w) p) as [ls [[]|e|]]; simpl; [|done..].
    by rewrite IH, say_say.
Qed.


Lemma glob_evtx_listing (w : world) (directory : string) (sz : N) (names : list string) :
  files w !! str (PathOf directory) = Some (Dir sz names) →
  glob (PathOf directory) "*.evtx" w = (Ok (Child (PathOf directory) <$> matching names), w).
Proof.
  intros E. unfold glob, matching. simpl. rewrite E. do 3 f_equal.
  apply list_filter_iff. intros n. by rewrite fnmatch_evtx.
Qed.

Lemma read_evtx_files_report (directory : string) (w : world) :
  read_evtx_files directory w =
  ((scan_report (files w) directory).2, say (scan_report (files w) directory).1 w).
Proof.
  unfold read_evtx_files, scan_report, mbind, M_bind.
  unfold path_exists at 1.
  destruct (files w !! str (PathOf directory)) as [nd|] eqn:E; [|done].
  destruct nd as [r n d|n| |sz names|b];
    try (cbn [negb]; unfold glob; rewrite E; done).
  - cbn [negb]. rewrite (glob_evtx_listing _ _ _ _ E).
    destruct (matching names) as [|m ms] eqn:Em; [done|].
    set (ps := Child (PathOf directory) <$> m :: ms).
    rewrite bool_decide_eq_false_2 by done.
    unfold print. rewrite for_each_report. cbn [files handles console fst snd].
    unfold say. cbn [files handles console fst snd].
    rewrite <- !app_assoc. subst ps. by rewrite length_fmap.
  - by rewrite say_nil.
Qed.

(** ** The primitives, by what the path resolves to *)


Lemma stat_size_outcome (p : Path) (w : world) :
  (stat_size p w).1 =
  match files w !! str p with
  | Some (Barred b) => Raise (barrier_exn b (str p))
  | Some nd => Ok (size_of nd)
  | None => Raise (FileNotFoundError (str p))
  end.
Proof. unfold stat_size. by destruct (files w !! str p) as [[]|]. Qed.

Lemma open_and_read8_outcome (p : Path) (w : world) :
  (open_and_read8 p w).1 =
  match files w !! str p with
  | Some (Reg true _ d) => Ok (take 8 d)
  | Some (Reg false _ _) => Raise (PermissionError (str p))
  | Some (Faulty _) => Raise IOError_EIO
  | Some Fifo => Blocked
  | Some (Dir _ _) => Raise (IsADirectoryError (str p))
  | Some (Barred b) => Raise (barrier_exn b (str p))
  | None => Raise (FileNotFoundError (str p))
  end.
Proof.
  unfold open_and_read8, mbind, M_bind, open, read.
  destruct (files w !! str p) as [[[|] sz d|n| |n l|b]|] eqn:E; simpl; rewrite ?E; try done.
  simpl. by rewrite decide_True.
Qed.

Lemma verdict_signature_line (p : Path) (w : world) (nd : node) :
  files w !! str p = Some nd →
  verdict p nd = signature_line (open_and_read8 p w).1.
Proof.
  intros E. rewrite open_and_read8_outcome, E.
  destruct nd as [[|] sz d|n| |n l|b]; simpl; try done.
  by rewrite take_take.
Qed.

Lemma entry_report_reported (p : Path) (w : world) :
  handled w p →
  (entry_report (files w) p).2 = Ok () ∧ reported w p (entry_report (files w) p).1.
Proof.
  intros [[sz Hs] Hb]. unfold entry_report, reported.
  rewrite stat_size_outcome in Hs.
  destruct (files w !! str p) as [nd|] eqn:E; [|done].
  pose proof (verdict_signature_line p w nd E) as Hv.
  rewrite stat_size_outcome, E.
  assert (∀ b, nd ≠ Barred b) as Hn by (intros b ->; done).
  destruct (verdict p nd) as [l3|] eqn:Ev.
  - destruct nd as [r n d|n| |n l|b]; try done; try (by destruct (Hn b));
      (split; [done|]; eexists _, l3; repeat split; by rewrite <- ?Hv).
  - destruct (open_and_read8 p w).1; simpl in Hv; done.
Qed.

Lemma entry_report_stat_fails (p : Path) (w : world) (e : exn) :
  (stat_size p w).1 = Raise e →
  entry_report (files w) p = ([FileName (name p)], Raise e).
Proof.
  rewrite stat_size_outcome. unfold entry_report.
  destruct (files w !! str p) as [[]|]; try done; by intros [= <-].
Qed.

Lemma entry_report_ok (p : Path) (w : world) :
  (entry_report (files w) p).2 = Ok () ↔ handled w p.
Proof.
  split; [|by intros H; apply entry_report_reported].
  unfold handled. rewrite stat_size_outcome, open_and_read8_outcome.
  unfold entry_report.
  destruct (files w !! str p) as [[[|] sz d|n| |n l|b]|]; simpl; try done;
    intros _; split; try done; by eexists.
Qed.

Lemma loop_report_ok (w : world) (ps : list Path) :
  (loop_report (files w) ps).2 = Ok () ↔ Forall (handled w) ps.
Proof.
  induction ps as [|p ps IH]; simpl.
  - split; [constructor|done].
  - rewrite Forall_cons, <- IH, <- entry_report_ok.
    destruct (entry_report (files w) p) as [ls [[]|e|]]; simpl;
      (split; [by intros H|by intros [? H]]).
Qed.


(** A loop stops at the first entry whose size cannot be had. *)
Lemma loop_report_stops (w : world) (pre : list Path) (p : Path) (post : list Path) (e : exn) :
  Forall (handled w) pre →
  (stat_size p w).1 = Raise e →
  ∃ reports, Forall2 (reported w) pre reports ∧
             loop_report (files w) (pre ++ p :: post) =
             (concat reports ++ [FileName (name p)], Raise e).
Proof.
  intros Hpre Hp. induction Hpre as [|q pre Hq _ (reports & F & E)].
  - exists []. split; [constructor|]. simpl.
    by rewrite (entry_report_stat_fails p w e Hp).
  - destruct (entry_report_reported q w Hq) as [Eo Er].
    exists ((entry_report (files w) q).1 :: reports). split; [by constructor|].
    simpl. destruct (entry_report (files w) q) as [ls [[]|e'|]]; try done.
    rewrite E. simpl. by rewrite app_assoc.
Qed.

(** ** Runs on the sample file systems *)

Example main_on_sample :
  main sample_world =
  (Ok (),
   say [Found 5; Rule;
        FileName "a.evtx"; FileSize 10; SigValid;
        FileName "short.evtx"; FileSize 3; SigWarning;
        FileName "locked.evtx"; FileSize 8;
        ReadErr "[Errno 13] Permission denied: 'evtx_files/locked.evtx'";
        FileName "sub.evtx"; FileSize 4096;
        ReadErr "[Errno 21] Is a directory: 'evtx_files/sub.evtx'";
        FileName "bad.evtx"; FileSize 69632;
        ReadErr "[Errno 5] Input/output error"]
     sample_world).
Proof. vm_compute. reflexivity. Qed.

Example render_sizes :
  render <$> [FileSize 0; FileSize 999; FileSize 1000; FileSize 69632; FileSize 1234567] =
  ["Size: 0 bytes"; "Size: 999 bytes"; "Size: 1,000 bytes"; "Size: 69,632 bytes";
   "Size: 1,234,567 bytes"].
Proof. vm_compute. reflexivity. Qed.

Example fnmatch_cases :
  fnmatch "*.evtx" <$> ["a.evtx"; ".evtx"; "evtx"; "a.evtx.bak"; "A.EVTX"; "a.evt.evtx"] =
  [true; true; false; false; false; true].
Proof. reflexivity. Qed.

(** Opening for writing would change the store: the frame property below is
    not one that every program over these primitives has. *)
Example open_wb_truncates :
  files (open (PathOf "evtx_files/a.evtx") WB sample_world).2 !! "evtx_files/a.evtx"
  = Some (Reg true 0 []).
Proof. vm_compute. reflexivity. Qed.

(** A pipe among the entries: the scan prints the name and the size of the
    pipe and does not return; the entry after it is not looked at. *)
Example scan_blocks_on_pipe :
  read_evtx_files "spool" spool_world =
  (Blocked,
   say [Found 3; Rule;
        FileName "stat.evtx"; FileSize 0; SigValid;
        FileName "pipe.evtx"; FileSize 0]
     spool_world).
Proof. vm_compute. reflexivity. Qed.

(** ** The signature check *)

(** C1: for a matched entry whose first 8 bytes are read (giving [header]),
    the entry is reported with a valid signature if and only if the first 4
    bytes of [header] are [b'ElfF']; with any other first 4 bytes, and so for
    fewer than 4 bytes, it is reported with the warning. *)
Theorem C1_valid_iff_magic (w : world) (p : Path) (header : bytes) :
  (open_and_read8 p w).1 = Ok header →
  ∃ sz v,
    loop_body p w = (Ok (), say [FileName (name p); FileSize sz; v] w) ∧
    (v = SigValid ↔ take 4 header = magic) ∧
    (v = SigWarning ↔ take 4 header ≠ magic) ∧
    (length header < 4 → v = SigWarning).
Proof.
  intros H.
  assert (handled w p) as Hh.
  { split; [|by rewrite H]. rewrite stat_size_outcome.
    rewrite open_and_read8_outcome in H.
    destruct (files w !! str p) as [[[|] n d|n| |n l|b]|]; try done; by eexists. }
  destruct (entry_report_reported p w Hh) as [Eo (sz & l3 & _ & Hl & El)].
  rewrite H in Hl. injection Hl as <-.
  exists sz, (if decide (take 4 header = magic) then SigValid else SigWarning).
  split; [by rewrite loop_body_report, Eo, El|].
  destruct (decide (take 4 header = magic)) as [E|E].
  - repeat split; try done. intros L.
    apply (f_equal length) in E. rewrite length_take in E.
    change (length magic) with 4 in E. lia.
  - repeat split; try done.
Qed.

Lemma C1_valid_iff_magic_witness :
  (open_and_read8 (Child (PathOf "evtx_files") "a.evtx") sample_world).1 = Ok elf_header ∧
  ∃ sz v,
    loop_body (Child (PathOf "evtx_files") "a.evtx") sample_world =
      (Ok (), say [FileName "a.evtx"; FileSize sz; v] sample_world) ∧
    (v = SigValid ↔ take 4 elf_header = magic) ∧
    (v = SigWarning ↔ take 4 elf_header ≠ magic) ∧
    (length elf_header < 4 → v = SigWarning).
Proof.
  split; [vm_compute; reflexivity|].
  apply (C1_valid_iff_magic sample_world (Child (PathOf "evtx_files") "a.evtx") elf_header).
  vm_compute; reflexivity.
Defined.

(** ** The directory check *)






(** ** Failures while an entry is handled *)

(** C3: when the size of a matched entry can be had but opening it or
    reading its first 8 bytes raises [e], the loop prints the three lines of
    that entry, the last one carrying the message of [e], and goes on with
    the remaining entries exactly as it would have from the same store and
    open files: the failure ends neither the loop nor the scan. *)
Theorem C3_read_failure_is_local
    (w : world) (p : Path) (rest : list Path) (sz : N) (e : exn) :
  (stat_size p w).1 = Ok sz →
  (open_and_read8 p w).1 = Raise e →
  for_each (p :: rest) loop_body w =
  for_each rest loop_body
    (say [FileName (name p); FileSize sz; ReadErr (str_exn e)] w).
Proof.
  intros Hs Ho.
  assert (handled w p) as Hh by (split; [by exists sz|by rewrite Ho]).
  destruct (entry_report_reported p w Hh) as [Eo (sz' & l3 & Hs' & Hl & El)].
  assert (sz' = sz) as -> by congruence.
  rewrite Ho in Hl. injection Hl as <-.
  cbn [for_each]. unfold mbind, M_bind at 1.
  by rewrite loop_body_report, Eo, El.
Qed.

Lemma C3_read_failure_is_local_witness :
  let p := Child (PathOf "evtx_files") "locked.evtx" in
  let rest := [Child (PathOf "evtx_files") "sub.evtx"; Child (PathOf "evtx_files") "a.evtx"] in
  let e := PermissionError "evtx_files/locked.evtx" in
  (stat_size p sample_world).1 = Ok 8%N ∧
  (open_and_read8 p sample_world).1 = Raise e ∧
  for_each (p :: rest) loop_body sample_world =
  for_each rest loop_body
    (say [FileName "locked.evtx"; FileSize 8; ReadErr (str_exn e)] sample_world).
Proof.
  intros p rest e.
  split; [vm_compute; reflexivity|].
  split; [vm_compute; reflexivity|].
  apply (C3_read_failure_is_local sample_world p rest 8%N e);
    vm_compute; reflexivity.
Defined.

(** ** Which entries are reported *)

(** A line is not among explicitly given lines that differ from it. *)
Ltac not_among :=
  let H := fresh in
  intros H;
  repeat (apply elem_of_cons in H as [H|H]; [discriminate H|]);
  by apply elem_of_nil in H.

(** C4: the scan at a directory with two entries that carry the extension,
    of which the first is a dangling symbolic link.  The scan announces two
    files, prints the name of the first and ends with the exception that
    [stat] raises on it (line 34, outside the [try] of lines 39-48): the
    second entry is never reported.  The handler of lines 47-48 is there for
    this very entry: [open] on it raises the same exception, and the [try]
    statement on its own turns that into the error line and returns. *)
Theorem C4_dangling_entry_ends_scan :
  files dangling_world !! str (PathOf "logs") = Some (Dir 4096 ["a.evtx"; "b.evtx"]) ∧
  matching ["a.evtx"; "b.evtx"] = ["a.evtx"; "b.evtx"] ∧
  read_evtx_files "logs" dangling_world =
    (Raise (FileNotFoundError "logs/a.evtx"),
     say [Found 2; Rule; FileName "a.evtx"] dangling_world) ∧
  (FileName "b.evtx" ∉ console (read_evtx_files "logs" dangling_world).2) ∧
  try_except (with_open (Child (PathOf "logs") "a.evtx") RB signature_check)
    (λ e, print (ReadErr (str_exn e))) dangling_world =
    (Ok (),
     say [ReadErr "[Errno 2] No such file or directory: 'logs/a.evtx'"] dangling_world).
Proof.
  assert (read_evtx_files "logs" dangling_world =
    (Raise (FileNotFoundError "logs/a.evtx"),
     say [Found 2; Rule; FileName "a.evtx"] dangling_world)) as R
    by (vm_compute; reflexivity).
  split; [vm_compute; reflexivity|].
  split; [vm_compute; reflexivity|].
  split; [exact R|]. split.
  - rewrite R. simpl. not_among.
  - vm_compute. reflexivity.
Qed.

Lemma loop_ok_handled (w : world) (ps : list Path) :
  (for_each ps loop_body w).1 = Ok () → Forall (handled w) ps.
Proof. rewrite for_each_report. apply loop_report_ok. Qed.


(** C9: the handler of lines 39-48 does not cover the size report of line
    34.  When the loop gets through the matched entries before some entry
    (run on them alone it returns normally) and the size of that entry
    cannot be had ([stat] raises [e]), the scan prints the count, the
    reports of those earlier entries and the name of the failing one, and
    ends with [e] raised to the caller: nothing is printed for the entries
    after it. *)
Theorem C9_stat_failure_propagates
    (w : world) (directory : string) (sz : N) (names pre : list string)
    (n : string) (post : list string) (e : exn) :
  files w !! str (PathOf directory) = Some (Dir sz names) →
  matching names = pre ++ n :: post →
  (for_each (Child (PathOf directory) <$> pre) loop_body w).1 = Ok () →
  (stat_size (Child (PathOf directory) n) w).1 = Raise e →
  ∃ reports,
    Forall2 (λ m ls, reported w (Child (PathOf directory) m) ls) pre reports ∧
    read_evtx_files directory w =
      (Raise e,
       say (Found (length (matching names)) :: Rule :: concat reports ++ [FileName n]) w).
Proof.
  intros E Em Hpre Hn.
  destruct (loop_report_stops w _ _ (Child (PathOf directory) <$> post) e
              (loop_ok_handled w _ Hpre) Hn) as (reports & F & L).
  rewrite Forall2_fmap_l in F.
  exists reports. split; [exact F|].
  rewrite read_evtx_files_report. unfold scan_report. rewrite E.
  destruct (matching names) as [|m ms] eqn:Em'.
  { by destruct pre. }
  rewrite Em, fmap_app, fmap_cons, L, name_Child. done.
Qed.

Lemma C9_stat_failure_propagates_witness :
  files dangling_world !! "logs" = Some (Dir 4096 ["a.evtx"; "b.evtx"]) ∧
  matching ["a.evtx"; "b.evtx"] = [] ++ "a.evtx" :: ["b.evtx"] ∧
  (for_each (Child (PathOf "logs") <$> []) loop_body dangling_world).1 = Ok () ∧
  (stat_size (Child (PathOf "logs") "a.evtx") dangling_world).1
    = Raise (FileNotFoundError "logs/a.evtx") ∧
  ∃ reports,
    Forall2 (λ m ls, reported dangling_world (Child (PathOf "logs") m) ls) [] reports ∧
    read_evtx_files "logs" dangling_world =
      (Raise (FileNotFoundError "logs/a.evtx"),
       say (Found (length (matching ["a.evtx"; "b.evtx"])) :: Rule ::
            concat reports ++ [FileName "a.evtx"]) dangling_world).
Proof.
  split; [vm_compute; reflexivity|].
  split; [vm_compute; reflexivity|].
  split; [vm_compute; reflexivity|].
  split; [vm_compute; reflexivity|].
  apply (C9_stat_failure_propagates dangling_world "logs" 4096 ["a.evtx"; "b.evtx"]
           [] "a.evtx" ["b.evtx"] (FileNotFoundError "logs/a.evtx")).
  - vm_compute; reflexivity.
  - vm_compute; reflexivity.
  - vm_compute; reflexivity.
  - vm_compute; reflexivity.
Defined.





(** ** The first four bytes decide *)

Lemma same_first4_refl (nd : node) : same_first4 nd nd.
Proof. by destruct nd. Qed.

Section agreement.
Context (fs fs' : gmap string node) (A : agree fs fs').

Lemma entry_report_agree (p : Path) : entry_report fs p = entry_report fs' p.
Proof.
  unfold entry_report.
  destruct (A (str p)) as [nd nd' S|]; [|done].
  destruct nd as [r n d|n| |n l|b], nd' as [r' n' d'|n'| |n' l'|b'];
    simpl in S; try done; try by simplify_eq.
  destruct S as (-> & -> & Ht). simpl.
  destruct r'; [|done]. by rewrite Ht.
Qed.

Lemma loop_report_agree (ps : list Path) : loop_report fs ps = loop_report fs' ps.
Proof.
  induction ps as [|p ps IH]; [done|].
  simpl. by rewrite (entry_report_agree p), IH.
Qed.

Lemma scan_report_agree (directory : string) :
  scan_report fs directory = scan_report fs' directory.
Proof.
  unfold scan_report.
  destruct (A (str (PathOf directory))) as [nd nd' S|]; [|done].
  destruct nd as [r n d|n| |n l|b], nd' as [r' n' d'|n'| |n' l'|b'];
    simpl in S; try done; try by simplify_eq.
  simplify_eq. destruct (matching l') as [|m ms]; [done|].
  cbv zeta. by rewrite (loop_report_agree _).
Qed.
End agreement.

Lemma agree_overwrite (fs : gmap string node) (k : string) (r : bool) (n : N)
    (d d' : bytes) :
  fs !! k = Some (Reg r n d) →
  take 4 d' = take 4 d →
  agree (<[k := Reg r n d']> fs) fs.
Proof.
  intros E Ht k'. destruct (decide (k' = k)) as [->|Hk].
  - rewrite lookup_insert_eq, E. by constructor.
  - rewrite lookup_insert_ne by done.
    destruct (fs !! k'); constructor. apply same_first4_refl.
Qed.

(** C7: for an entry that is a readable regular file with content [d].
    The check of lines 42-46, run on the file object just opened, asks for
    8 bytes: it leaves the file object 8 bytes on (at the end of a shorter
    file), and prints the valid line or the warning by the first 4 bytes
    alone.  The loop body prints the name, the size and that line.  And
    nothing depends on the bytes after the fourth: with any other content
    [d'] that has the same first four bytes in place of [d], of whatever
    length, every scan ends the same way and prints the same lines. *)
Theorem C7_only_first_four_bytes
    (w : world) (p : Path) (sz : N) (d d' : bytes) (directory : string) :
  files w !! str p = Some (Reg true sz d) →
  take 4 d' = take 4 d →
  signature_check (File (str p))
    (World (files w) ((str p, 0) :: handles w) (console w)) =
    (Ok (),
     World (files w) ((str p, min 8 (length d)) :: handles w)
       (console w ++ [if decide (take 4 d = magic) then SigValid else SigWarning])) ∧
  loop_body p w =
    (Ok (),
     say [FileName (name p); FileSize sz;
          if decide (take 4 d = magic) then SigValid else SigWarning] w) ∧
  (read_evtx_files directory
     (World (<[str p := Reg true sz d']> (files w)) (handles w) (console w))).1
    = (read_evtx_files directory w).1 ∧
  console (read_evtx_files directory
             (World (<[str p := Reg true sz d']> (files w)) (handles w) (console w))).2
    = console (read_evtx_files directory w).2.
Proof.
  intros E Ht. split; [|split].
  - rewrite (signature_check_regular _ (str p) true sz d (handles w)) by done.
    by rewrite length_take.
  - rewrite loop_body_report. unfold entry_report. by rewrite E.
  - rewrite !read_evtx_files_report. simpl.
    by rewrite (scan_report_agree _ _ (agree_overwrite _ (str p) true sz d d' E Ht) directory).
Qed.

Lemma C7_only_first_four_bytes_witness :
  let p := Child (PathOf "evtx_files") "a.evtx" in
  let d := elf_header ++ [x03; x00] in
  let d' := magic ++ [xff; xfe; xfd] in
  files sample_world !! str p = Some (Reg true 10 d) ∧
  take 4 d' = take 4 d ∧
  signature_check (File (str p)) (World (files sample_world) [(str p, 0)] []) =
    (Ok (), World (files sample_world) [(str p, 8)] [SigValid]) ∧
  loop_body p sample_world =
    (Ok (), say [FileName "a.evtx"; FileSize 10; SigValid] sample_world) ∧
  (read_evtx_files "evtx_files"
     (World (<[str p := Reg true 10 d']> (files sample_world)) [] [])).1
    = (read_evtx_files "evtx_files" sample_world).1 ∧
  console (read_evtx_files "evtx_files"
             (World (<[str p := Reg true 10 d']> (files sample_world)) [] [])).2
    = console (read_evtx_files "evtx_files" sample_world).2.
Proof.
  intros p d d'.
  split; [vm_compute; reflexivity|].
  split; [reflexivity|].
  apply (C7_only_first_four_bytes sample_world p 10 d d' "evtx_files").
  - vm_compute; reflexivity.
  - reflexivity.
Defined.

(** ** Nothing but the console changes *)


(** ** What the initial check lets through *)


Lemma printed_report (directory : string) (w : world) :
  printed directory w = (scan_report (files w) directory).1.
Proof.
  unfold printed. rewrite read_evtx_files_report. simpl. apply drop_app_length.
Qed.



(** * Further properties of the scan *)

(** ** The pattern of line 23 *)

(** X1: a name matches the pattern ["*.evtx"] exactly when it is some stem,
    the empty one included, followed by [".evtx"] in this very case. *)
Theorem X1_pattern_is_suffix (n : string) :
  fnmatch "*.evtx" n = true ↔ ∃ stem, n = stem +:+ ".evtx".
Proof. rewrite fnmatch_evtx. apply ends_with_spec. Qed.

(** ** A readable regular file *)

Lemma take4_magic_prefix (d : bytes) : take 4 d = magic ↔ magic `prefix_of` d.
Proof.
  split.
  - intros E. exists (drop 4 d). by rewrite <- E, take_drop.
  - intros [k ->]. by rewrite (take_app_length' magic k 4).
Qed.

(** X2: for an entry that is a readable regular file whose metadata give
    the size [sz] and whose content is [d], the loop body prints the name,
    the size [sz] of the metadata (whatever the length of [d]), and the
    valid-signature line if [d] starts with [b'ElfF'], the warning
    otherwise; it returns normally. *)
Theorem X2_regular_file_report (w : world) (p : Path) (sz : N) (d : bytes) :
  files w !! str p = Some (Reg true sz d) →
  loop_body p w =
  (Ok (),
   say [FileName (name p); FileSize sz;
        if decide (magic `prefix_of` d) then SigValid else SigWarning] w).
Proof.
  intros E. rewrite loop_body_report. unfold entry_report. rewrite E. simpl.
  do 4 f_equal.
  destruct (decide (take 4 d = magic)) as [H|H], (decide (magic `prefix_of` d)) as [H'|H'];
    try done; by rewrite take4_magic_prefix in H.
Qed.

Lemma X2_regular_file_report_witness :
  files spool_world !! str (Child (PathOf "spool") "stat.evtx")
    = Some (Reg true 0 elf_header) ∧
  loop_body (Child (PathOf "spool") "stat.evtx") spool_world =
  (Ok (), say [FileName "stat.evtx"; FileSize 0; SigValid] spool_world).
Proof.
  split; [vm_compute; reflexivity|].
  apply (X2_regular_file_report spool_world (Child (PathOf "spool") "stat.evtx")
           0 elf_header).
  vm_compute; reflexivity.
Defined.

(** ** Scanning again *)


(** ** What the scan looks at *)

Lemma loop_report_local (fs fs' : gmap string node) (ps : list Path) :
  Forall (λ p, fs !! str p = fs' !! str p) ps →
  loop_report fs ps = loop_report fs' ps.
Proof.
  induction 1 as [|p ps Hp _ IH]; [done|].
  simpl. unfold entry_report. by rewrite Hp, IH.
Qed.

(** X6: the scan looks at the directory and at its entries that carry the
    extension, and at nothing else.  Two stores in which the directory is
    the same and those entries resolve alike give the same outcome and the
    same printed lines, whatever else they hold: neither the other entries
    of the directory, nor what lies below its subdirectories, nor any file
    elsewhere is read. *)
Theorem X6_only_matching_entries_count
    (w w' : world) (directory : string) (sz : N) (names : list string) :
  files w !! str (PathOf directory) = Some (Dir sz names) →
  files w' !! str (PathOf directory) = Some (Dir sz names) →
  Forall (λ n, files w !! str (Child (PathOf directory) n)
               = files w' !! str (Child (PathOf directory) n)) (matching names) →
  (read_evtx_files directory w).1 = (read_evtx_files directory w').1 ∧
  printed directory w = printed directory w'.
Proof.
  intros E E' H. rewrite !printed_report, !read_evtx_files_report. cbn [fst].
  assert (scan_report (files w) directory = scan_report (files w') directory) as ->; [|done].
  unfold scan_report. rewrite E, E'.
  destruct (matching names) as [|m ms] eqn:Em; [done|].
  rewrite <- Em. cbv zeta.
  rewrite (loop_report_local (files w) (files w')
             (Child (PathOf directory) <$> matching names)); [done|].
  apply Forall_fmap. rewrite Em. exact H.
Qed.

Lemma X6_only_matching_entries_count_witness :
  let names := ["a.evtx"; "notes.txt"; "short.evtx"; "locked.evtx";
                "sub.evtx"; "bad.evtx"; "A.EVTX"] in
  files sample_world !! str (PathOf "evtx_files") = Some (Dir 4096 names) ∧
  files other_world !! str (PathOf "evtx_files") = Some (Dir 4096 names) ∧
  files sample_world ≠ files other_world ∧
  (read_evtx_files "evtx_files" sample_world).1 = (read_evtx_files "evtx_files" other_world).1 ∧
  printed "evtx_files" sample_world = printed "evtx_files" other_world.
Proof.
  intros names.
  split; [vm_compute; reflexivity|].
  split; [vm_compute; reflexivity|].
  split.
  { intros H. apply (f_equal (λ fs, fs !! "elsewhere/c.evtx")) in H.
    vm_compute in H. discriminate H. }
  apply (X6_only_matching_entries_count sample_world other_world "evtx_files" 4096 names).
  - vm_compute; reflexivity.
  - vm_compute; reflexivity.
  - repeat (constructor; [vm_compute; reflexivity|]). constructor.
Defined.

(** ** The shape of a report *)

Lemma entry_report_lines (fs : gmap string node) (p : Path) :
  Forall entry_line (entry_report fs p).1 ∧ (length (entry_report fs p).1 ≤ 3)%nat.
Proof.
  unfold entry_report.
  destruct (fs !! str p) as [[[|] n d|n| |n l|b]|]; simpl;
    try case_decide; (split; [by repeat constructor|lia]).
Qed.

Lemma loop_report_lines (fs : gmap string node) (ps : list Path) :
  Forall entry_line (loop_report fs ps).1 ∧
  (length (loop_report fs ps).1 ≤ 3 * length ps)%nat.
Proof.
  induction ps as [|p ps [IHl IHn]]; simpl; [split; [constructor|lia]|].
  destruct (entry_report_lines fs p) as [Hl Hn].
  destruct (entry_report fs p) as [ls [[]|e|]]; simpl in *.
  - split; [by apply Forall_app|]. rewrite length_app. lia.
  - split; [done|lia].
  - split; [done|lia].
Qed.

(** X7: what a scan prints is one of four things: nothing, and then the
    scan ends with an exception; the missing-directory line alone; the
    no-files line alone; or the count of the entries that carry the
    extension, which is then not zero, the rule, and after them only lines
    of entries, at most three for each such entry.  In particular the scan
    never prints a count of 0, and prints the count and the rule at most
    once. *)
Theorem X7_shape_of_report (w : world) (directory : string) :
  (printed directory w = [] ∧ ∃ e, (read_evtx_files directory w).1 = Raise e) ∨
  printed directory w = [ErrNoDir directory] ∨
  printed directory w = [NoFiles directory] ∨
  ∃ sz names body,
    files w !! str (PathOf directory) = Some (Dir sz names) ∧
    0 < length (matching names) ∧
    printed directory w = Found (length (matching names)) :: Rule :: body ∧
    Forall entry_line body ∧
    (length body ≤ 3 * length (matching names))%nat.
Proof.
  rewrite printed_report, read_evtx_files_report. cbn [fst]. unfold scan_report.
  destruct (files w !! str (PathOf directory)) as [[r n d|n| |sz names|b]|];
    [by right; right; left|by right; right; left|by right; right; left|
    |left; split; [done|by eexists]|by right; left].
  destruct (matching names) as [|m ms] eqn:Em; [by right; right; left|].
  do 3 right. rewrite <- Em. cbv zeta. cbn [fst].
  exists sz, names, (loop_report (files w) (Child (PathOf directory) <$> matching names)).1.
  destruct (loop_report_lines (files w) (Child (PathOf directory) <$> matching names))
    as [Hl Hn].
  rewrite length_fmap in Hn.
  repeat split; try done. rewrite Em. simpl. lia.
Qed.

(** ** The printed text *)

Lemma chars_app (s t : string) :
  list_ascii_of_string (s +:+ t) = list_ascii_of_string s ++ list_ascii_of_string t.
Proof. induction s as [|a s IH]; [done|]. rewrite app_cons. simpl. by rewrite IH. Qed.

Lemma chars_inj (s t : string) :
  list_ascii_of_string s = list_ascii_of_string t → s = t.
Proof.
  intros H. apply (f_equal string_of_list_ascii) in H.
  by rewrite !string_of_list_ascii_of_string in H.
Qed.

Lemma app_inv_tail_string (s s' t : string) : s +:+ t = s' +:+ t → s = s'.
Proof.
  intros H. apply chars_inj. apply (f_equal list_ascii_of_string) in H.
  rewrite !chars_app in H. by apply app_inv_tail in H.
Qed.

Lemma pretty_N_char_no_comma (x : N) : pretty_N_char x ≠ ","%char.
Proof. unfold pretty_N_char. by repeat case_match. Qed.

Lemma pretty_N_go_no_comma (x : N) (s : string) :
  Forall (λ c, c ≠ ","%char) (list_ascii_of_string s) →
  Forall (λ c, c ≠ ","%char) (list_ascii_of_string (pretty_N_go x s)).
Proof.
  revert s. induction (N.lt_wf_0 x) as [x _ IH]; intros s Hs.
  assert (x = 0 ∨ 0 < x)%N as [->|Hx] by lia.
  - by rewrite pretty_N_go_0.
  - rewrite pretty_N_go_step by done. apply IH.
    + by apply N.div_lt.
    + simpl. constructor; [apply pretty_N_char_no_comma|done].
Qed.

Lemma pretty_N_no_comma (n : N) :
  Forall (λ c, c ≠ ","%char) (list_ascii_of_string (pretty n)).
Proof.
  unfold pretty, pretty_N. case_decide.
  - by repeat constructor.
  - apply pretty_N_go_no_comma. constructor.
Qed.

Lemma filter_all {A} (P : A → Prop) `{∀ x, Decision (P x)} (l : list A) :
  Forall P l → filter P l = l.
Proof.
  induction 1 as [|x l Hx _ IH]; [done|]. by rewrite filter_cons_True, IH.
Qed.

(** Grouping adds separators and nothing else. *)
Lemma group_thousands_strip (l : list ascii) :
  filter (λ c, c ≠ ","%char) (group_thousands l) = filter (λ c, c ≠ ","%char) l.
Proof.
  remember (length l) as k eqn:Hk.
  revert l Hk. induction (lt_wf k) as [k _ IH]. intros l ->.
  destruct l as [|a [|b [|c [|d rest]]]]; try done.
  change (group_thousands (a :: b :: c :: d :: rest))
    with ([a; b; c] ++ ","%char :: group_thousands (d :: rest)).
  change (a :: b :: c :: d :: rest) with ([a; b; c] ++ d :: rest).
  rewrite !filter_app. f_equal.
  rewrite filter_cons_False by (by intros H; apply H).
  apply (IH (length (d :: rest))); [simpl; lia|done].
Qed.

Lemma grouped_digits_strip (ds : list ascii) :
  Forall (λ c, c ≠ ","%char) ds →
  filter (λ c, c ≠ ","%char) (reverse (group_thousands (reverse ds))) = ds.
Proof.
  intros H.
  rewrite filter_reverse, group_thousands_strip, filter_reverse, reverse_involutive.
  by apply filter_all.
Qed.

(** X8: the size as printed with grouping separators is the decimal
    numeral of the size once the separators are taken out. *)
Theorem X8_grouping_round_trip (n : N) :
  strip_commas (format_grouped n) = pretty n.
Proof.
  unfold strip_commas, format_grouped.
  rewrite list_ascii_of_string_of_list_ascii.
  rewrite grouped_digits_strip by apply pretty_N_no_comma.
  apply string_of_list_ascii_of_string.
Qed.

Lemma format_grouped_inj (n m : N) : format_grouped n = format_grouped m → n = m.
Proof.
  unfold format_grouped. intros H.
  apply (f_equal (λ s, filter (λ c, c ≠ ","%char) (list_ascii_of_string s))) in H.
  simpl in H. rewrite !list_ascii_of_string_of_list_ascii in H.
  rewrite !grouped_digits_strip in H by apply pretty_N_no_comma.
  apply chars_inj in H. by apply (inj pretty).
Qed.

Lemma app_nil_string (t : string) : "" +:+ t = t.
Proof. reflexivity. Qed.

(** Brings the literal characters at the head of a text to the front. *)
Ltac expose_head H :=
  unfold render, dashes in H; simpl in H;
  repeat rewrite app_cons in H; rewrite ?app_nil_string in H.

(** X9: the text of a line tells which line it is: two report lines that
    print as the same text are the same line, with the same directory,
    count, name, size or message. *)
Theorem X9_render_inj (l1 l2 : line) : render l1 = render l2 → l1 = l2.
Proof.
  intros H.
  destruct l1, l2; expose_head H; try discriminate H; try reflexivity;
    simplify_eq; f_equal.
  - by eapply app_inv_tail_string.
  - by eapply app_inv_tail_string.
  - apply (inj pretty). by eapply app_inv_tail_string.
  - apply format_grouped_inj. by eapply app_inv_tail_string.
Qed.

Lemma X9_render_inj_witness :
  render (FileSize 1234567) = render (FileSize (1234 * 1000 + 567)) ∧
  FileSize 1234567 = FileSize (1234 * 1000 + 567).
Proof.
  split; [vm_compute; reflexivity|].
  apply (X9_render_inj (FileSize 1234567) (FileSize (1234 * 1000 + 567))).
  vm_compute; reflexivity.
Defined.

Lemma group_thousands_short (l : list ascii) :
  (length l ≤ 3)%nat → group_thousands l = l.
Proof. destruct l as [|a [|b [|c [|d rest]]]]; simpl; (done || lia). Qed.

Lemma group_thousands_lookup (l : list ascii) :
  Forall (λ c, c ≠ ","%char) l →
  ∀ i c, group_thousands l !! i = Some c → (c = ","%char ↔ i mod 4 = 3).
Proof.
  remember (length l) as k eqn:Hk.
  revert l Hk. induction (lt_wf k) as [k _ IH]. intros l -> Hl i x Hi.
  destruct (decide (length l ≤ 3)%nat) as [Hs|Hs].
  { rewrite group_thousands_short in Hi by done.
    pose proof (lookup_lt_Some _ _ _ Hi) as Hlt.
    pose proof (Forall_lookup_1 _ _ _ _ Hl Hi) as Hx. simpl in Hx.
    rewrite Nat.mod_small by lia. split; [done|lia]. }
  destruct l as [|a [|b [|c [|d rest]]]]; try (simpl in Hs; lia).
  change (group_thousands (a :: b :: c :: d :: rest))
    with (a :: b :: c :: ","%char :: group_thousands (d :: rest)) in Hi.
  apply Forall_cons in Hl as [Ha Hl]. apply Forall_cons in Hl as [Hb Hl].
  apply Forall_cons in Hl as [Hc Hl].
  destruct i as [|[|[|[|j]]]]; simpl in Hi; simplify_eq.
  1-3: split; [done|by compute].
  - by split.
  - replace (S (S (S (S j)))) with (j + 1 * 4) by lia.
    rewrite Nat.Div0.mod_add.
    apply (IH (length (d :: rest))) with (l := d :: rest); [simpl; lia|done..].
Qed.

Lemma group_thousands_last (l : list ascii) : last (group_thousands l) = last l.
Proof.
  remember (length l) as k eqn:Hk.
  revert l Hk. induction (lt_wf k) as [k _ IH]. intros l ->.
  destruct l as [|a [|b [|c [|d rest]]]]; try done.
  change (group_thousands (a :: b :: c :: d :: rest))
    with ([a; b; c; ","%char] ++ group_thousands (d :: rest)).
  change (a :: b :: c :: d :: rest) with ([a; b; c] ++ d :: rest).
  rewrite !last_app, (IH (length (d :: rest))) by (simpl; lia || done).
  by destruct (last (d :: rest)) eqn:E; [|by rewrite last_cons in E; destruct (last rest)].
Qed.

(** X10: in the size as printed, counting characters from the right end
    and from 0, the separators are exactly the characters at the places 3,
    7, 11, ...; and the text does not begin with a separator. *)
Theorem X10_separator_places (n : N) :
  (∀ i c, reverse (list_ascii_of_string (format_grouped n)) !! i = Some c →
          (c = ","%char ↔ i mod 4 = 3)) ∧
  head (list_ascii_of_string (format_grouped n)) ≠ Some ","%char.
Proof.
  unfold format_grouped. rewrite list_ascii_of_string_of_list_ascii.
  pose proof (pretty_N_no_comma n) as Hd.
  split.
  - rewrite reverse_involutive. apply group_thousands_lookup.
    by apply Forall_reverse.
  - rewrite head_reverse, group_thousands_last, last_reverse.
    destruct Hd as [|c ds Hc _]; [done|]. simpl. by intros [= ->].
Qed.

(** ** Which entries get the error line *)

(** X11: an entry that resolves to a regular file, to a file whose blocks
    cannot be read or to a directory gets its three lines and the loop body
    returns; the third line is the error line exactly when the entry is not
    a readable regular file. *)
Theorem X11_error_line_iff_unreadable (w : world) (p : Path) (nd : node) :
  files w !! str p = Some nd →
  nd ≠ Fifo →
  (∀ b, nd ≠ Barred b) →
  ∃ sz l3,
    loop_body p w = (Ok (), say [FileName (name p); FileSize sz; l3] w) ∧
    ((∃ msg, l3 = ReadErr msg) ↔ ¬ ∃ n d, nd = Reg true n d).
Proof.
  intros E Hf Hb.
  destruct nd as [[|] n d|n| |n l|b]; try done; try (by destruct (Hb b)).
  - exists n, (if decide (take 4 d = magic) then SigValid else SigWarning). split.
    + rewrite loop_body_report. unfold entry_report. by rewrite E.
    + split; [|intros H; destruct H; by exists n, d].
      intros [msg H]. by destruct (decide (take 4 d = magic)).
  - eexists n, _. split.
    + rewrite loop_body_report. unfold entry_report. by rewrite E.
    + split; [by intros _ (? & ? & ?)|by eexists].
  - eexists n, _. split.
    + rewrite loop_body_report. unfold entry_report. by rewrite E.
    + split; [by intros _ (? & ? & ?)|by eexists].
  - eexists n, _. split.
    + rewrite loop_body_report. unfold entry_report. by rewrite E.
    + split; [by intros _ (? & ? & ?)|by eexists].
Qed.

Lemma X11_error_line_iff_unreadable_witness :
  files sample_world !! str (Child (PathOf "evtx_files") "bad.evtx") = Some (Faulty 69632) ∧
  Faulty 69632 ≠ Fifo ∧
  (∀ b, Faulty 69632 ≠ Barred b) ∧
  ∃ sz l3,
    loop_body (Child (PathOf "evtx_files") "bad.evtx") sample_world =
      (Ok (), say [FileName "bad.evtx"; FileSize sz; l3] sample_world) ∧
    ((∃ msg, l3 = ReadErr msg) ↔ ¬ ∃ n d, Faulty 69632 = Reg true n d).
Proof.
  split; [vm_compute; reflexivity|].
  split; [discriminate|].
  split; [discriminate|].
  apply (X11_error_line_iff_unreadable sample_world
           (Child (PathOf "evtx_files") "bad.evtx") (Faulty 69632)).
  - vm_compute; reflexivity.
  - discriminate.
  - discriminate.
Defined.
